(** * OmnioSearch front-end bootstrap ([src/main.tsx])

    A shallow embedding of the module script that starts the UI: it probes
    the Tauri bridge, dispatches the [init_app] command, mounts the React
    tree and registers the global listeners.  The script is modelled as a
    computation in a state-and-exception monad over the observable browser
    state; what the host does afterwards (settling the promise, firing DOM
    events) is a list of stimuli run against the state the script leaves. *)

From Stdlib Require Import List String ZArith Bool Lia.
Import ListNotations.
Open Scope string_scope.
Open Scope list_scope.

(** ** JavaScript values *)

Module Js.

(** The values a binding typed [any] can hold.  Objects are compared by
    reference, as [===] does. *)
Inductive Value : Type :=
| VUndefined
| VNull
| VBool (b : bool)
| VNum (n : Z)
| VNaN
| VStr (s : string)
| VObj (ref : nat).

(** [a === b] *)
Definition strict_equals (a b : Value) : bool :=
  match a, b with
  | VUndefined, VUndefined => true
  | VNull, VNull => true
  | VBool x, VBool y => Bool.eqb x y
  | VNum x, VNum y => Z.eqb x y
  | VStr x, VStr y => String.eqb x y
  | VObj x, VObj y => Nat.eqb x y
  | _, _ => false
  end.

(** [a !== b] *)
Definition strict_not_equals (a b : Value) : bool :=
  negb (strict_equals a b).

(** ToBoolean, as applied by [!x] and by [if (x)]. *)
Definition to_boolean (v : Value) : bool :=
  match v with
  | VUndefined | VNull | VNaN => false
  | VBool b => b
  | VNum n => negb (Z.eqb n 0)
  | VStr s => negb (String.eqb s "")
  | VObj _ => true
  end.

End Js.
Import Js.

(** ** The component tree handed to [root.render] *)

Record IconTheme : Type := { primary : string; secondary : string }.

Record Style : Type :=
  { background : string; color : string; border : string }.

Record SeverityOptions : Type := { iconTheme : IconTheme }.

Record ToastOptions : Type :=
  { duration : Z;
    style : Style;
    success : SeverityOptions;
    error : SeverityOptions }.

#[local] Set Warnings "-register-all".

Inductive Element : Type :=
| StrictMode (children : list Element)
| BrowserRouter (children : list Element)
| App
| Toaster (position : string) (options : ToastOptions).

(** The object literal of lines 32-51. *)
Definition toastOptions : ToastOptions :=
  {| duration := 4000;
     style := {| background := "#1e293b";
                 color := "#f1f5f9";
                 border := "1px solid #334155" |};
     success := {| iconTheme := {| primary := "#10b981";
                                   secondary := "#f1f5f9" |} |};
     error := {| iconTheme := {| primary := "#ef4444";
                                 secondary := "#f1f5f9" |} |} |}.

(** The JSX expression of lines 27-54. *)
Definition app_tree : Element :=
  StrictMode [ BrowserRouter [ App; Toaster "top-right" toastOptions ] ].

(** Every toast configuration occurring in a tree, left to right. *)
Fixpoint toast_configs (t : Element) : list ToastOptions :=
  match t with
  | StrictMode cs | BrowserRouter cs => flat_map toast_configs cs
  | App => []
  | Toaster _ o => [o]
  end.

(** ** Events, listeners, promise reactions *)

Inductive Target : Type := Window | Document.

Definition Target_eqb (a b : Target) : bool :=
  match a, b with
  | Window, Window | Document, Document => true
  | _, _ => false
  end.

(** The part of a DOM event the script's listeners look at. *)
Record Event : Type :=
  { ev_type : string;
    cancelable : bool;
    defaultPrevented : bool;
    ev_error : Value;      (* [event.error] of an ErrorEvent *)
    ev_reason : Value }.   (* [event.reason] of a PromiseRejectionEvent *)

(** The three arrow functions passed to [addEventListener]. *)
Inductive Listener : Type :=
| LContextMenu           (* line 59 *)
| LGlobalError           (* lines 63-65 *)
| LUnhandledRejection.   (* lines 67-69 *)

(** The arrow function passed to [.catch]. *)
Inductive Reaction : Type :=
| RInitFailed.           (* lines 17-19 *)

Inductive Outcome : Type :=
| Fulfilled (v : Value)
| Rejected (e : Value).

Record Root : Type := { container : option nat }.

(** ** The host: everything the script reads or calls but does not define *)

Record Host : Type :=
  { (* own property [__TAURI__] of [window]; [None] when it is not defined *)
    window_TAURI : option Value;
    (* [import.meta.env.DEV] *)
    env_DEV : Value;
    (* the elements of the document that carry an id, in tree order *)
    doc_elements : list (string * nat);
    (* [invoke cmd]: [Some e] when the call throws [e] before returning a
       promise *)
    invoke_throws : string -> option Value;
    (* [ReactDOM.createRoot c]: [Some e] when it throws [e] *)
    createRoot_throws : option nat -> option Value;
    (* [root.render tree]: [Some e] when it throws [e] *)
    render_throws : option Value }.

(** ** Observable state *)

Inductive Action : Type :=
| AInvoke (cmd : string)
| APromise (p : nat)
| ACatch (p : nat) (r : Reaction) (derived : nat)
| AGetElementById (id : string) (found : option nat)
| ACreateRoot (c : option nat)
| ARender (r : Root) (tree : Element)
| AAddListener (t : Target) (type : string) (l : Listener)
| AConsoleError (label : string) (v : Value)
| ASettle (p : nat) (o : Outcome)
| AUncaught (e : Value).

Record State : Type :=
  { next_promise : nat;
    (* calls of [invoke], with the promise each returned *)
    invoked : list (string * option nat);
    (* [p.catch(r)] registrations: source promise, reaction, derived promise *)
    reactions : list (nat * Reaction * nat);
    settled : list (nat * Outcome);
    listeners : list (Target * string * Listener);
    rendered : list (Root * Element);
    (* [console.error(label, v)] entries, oldest first *)
    console : list (string * Value);
    (* exceptions and rejections nobody handled *)
    uncaught : list Value;
    (* every effect, oldest first *)
    trace : list Action }.

Definition initial : State :=
  {| next_promise := 0; invoked := []; reactions := []; settled := [];
     listeners := []; rendered := []; console := []; uncaught := [];
     trace := [] |}.

Definition emit (a : Action) (st : State) : State :=
  {| next_promise := next_promise st; invoked := invoked st;
     reactions := reactions st; settled := settled st;
     listeners := listeners st; rendered := rendered st;
     console := console st; uncaught := uncaught st;
     trace := trace st ++ [a] |}.

Definition set_next_promise (n : nat) (st : State) : State :=
  {| next_promise := n; invoked := invoked st;
     reactions := reactions st; settled := settled st;
     listeners := listeners st; rendered := rendered st;
     console := console st; uncaught := uncaught st;
     trace := trace st |}.

Definition set_invoked (x : list (string * option nat)) (st : State) : State :=
  {| next_promise := next_promise st; invoked := x;
     reactions := reactions st; settled := settled st;
     listeners := listeners st; rendered := rendered st;
     console := console st; uncaught := uncaught st;
     trace := trace st |}.

Definition set_reactions (x : list (nat * Reaction * nat)) (st : State) : State :=
  {| next_promise := next_promise st; invoked := invoked st;
     reactions := x; settled := settled st;
     listeners := listeners st; rendered := rendered st;
     console := console st; uncaught := uncaught st;
     trace := trace st |}.

Definition set_settled (x : list (nat * Outcome)) (st : State) : State :=
  {| next_promise := next_promise st; invoked := invoked st;
     reactions := reactions st; settled := x;
     listeners := listeners st; rendered := rendered st;
     console := console st; uncaught := uncaught st;
     trace := trace st |}.

Definition set_listeners (x : list (Target * string * Listener)) (st : State) : State :=
  {| next_promise := next_promise st; invoked := invoked st;
     reactions := reactions st; settled := settled st;
     listeners := x; rendered := rendered st;
     console := console st; uncaught := uncaught st;
     trace := trace st |}.

Definition set_rendered (x : list (Root * Element)) (st : State) : State :=
  {| next_promise := next_promise st; invoked := invoked st;
     reactions := reactions st; settled := settled st;
     listeners := listeners st; rendered := x;
     console := console st; uncaught := uncaught st;
     trace := trace st |}.

Definition set_console (x : list (string * Value)) (st : State) : State :=
  {| next_promise := next_promise st; invoked := invoked st;
     reactions := reactions st; settled := settled st;
     listeners := listeners st; rendered := rendered st;
     console := x; uncaught := uncaught st;
     trace := trace st |}.

Definition set_uncaught (x : list Value) (st : State) : State :=
  {| next_promise := next_promise st; invoked := invoked st;
     reactions := reactions st; settled := settled st;
     listeners := listeners st; rendered := rendered st;
     console := console st; uncaught := x;
     trace := trace st |}.

(** ** The monad of the script: state, and an exception that unwinds *)

Inductive Result (A : Type) : Type :=
| Ok (a : A)
| Throw (e : Value).
Arguments Ok {A} a.
Arguments Throw {A} e.

Definition M (A : Type) : Type := State -> Result A * State.

Definition ret {A} (a : A) : M A := fun st => (Ok a, st).

Definition throw {A} (e : Value) : M A := fun st => (Throw e, st).

Definition bind {A B} (c : M A) (k : A -> M B) : M B :=
  fun st =>
    match c st with
    | (Ok a, st') => k a st'
    | (Throw e, st') => (Throw e, st')
    end.

Definition modify (f : State -> State) : M unit := fun st => (Ok tt, f st).

Notation "x <- c ;; k" := (bind c (fun x => k))
  (at level 61, c at next level, right associativity).
Notation "c ;;; k" := (bind c (fun _ => k))
  (at level 61, right associativity).

(** ** The calls the script makes *)

(** [window.__TAURI__]: a property that is not defined reads as [undefined]. *)
Definition window___TAURI__ (h : Host) : Value :=
  match window_TAURI h with
  | Some v => v
  | None => VUndefined
  end.

(** [console.error(label, v)] *)
Definition console_error (label : string) (v : Value) : M unit :=
  modify (fun st =>
    emit (AConsoleError label v) (set_console (console st ++ [(label, v)]) st)).

(** [invoke(cmd)]: the call is made; unless it throws, it returns a fresh
    pending promise that the host settles later. *)
Definition invoke (h : Host) (cmd : string) : M nat :=
  fun st =>
    match invoke_throws h cmd with
    | Some e =>
        (Throw e, emit (AInvoke cmd) (set_invoked (invoked st ++ [(cmd, None)]) st))
    | None =>
        let p := next_promise st in
        (Ok p,
         emit (APromise p)
           (emit (AInvoke cmd)
              (set_next_promise (S p)
                 (set_invoked (invoked st ++ [(cmd, Some p)]) st))))
    end.

(** [p.catch(r)]: registers [r] on [p] and returns the derived promise. *)
Definition promise_catch (p : nat) (r : Reaction) : M nat :=
  fun st =>
    let d := next_promise st in
    (Ok d,
     emit (ACatch p r d)
       (set_next_promise (S d)
          (set_reactions (reactions st ++ [(p, r, d)]) st))).

(** [document.getElementById(id)]: the first element with that id, or
    [null]. *)
Definition lookup_id (id : string) (els : list (string * nat)) : option nat :=
  match find (fun e => String.eqb (fst e) id) els with
  | Some e => Some (snd e)
  | None => None
  end.

Definition getElementById (h : Host) (id : string) : M (option nat) :=
  fun st =>
    let r := lookup_id id (doc_elements h) in
    (Ok r, emit (AGetElementById id r) st).

(** [ReactDOM.createRoot(c)] *)
Definition createRoot (h : Host) (c : option nat) : M Root :=
  fun st =>
    match createRoot_throws h c with
    | Some e => (Throw e, emit (ACreateRoot c) st)
    | None => (Ok {| container := c |}, emit (ACreateRoot c) st)
    end.

(** [root.render(tree)] *)
Definition render (h : Host) (r : Root) (tree : Element) : M unit :=
  fun st =>
    match render_throws h with
    | Some e => (Throw e, st)
    | None =>
        (Ok tt, emit (ARender r tree) (set_rendered (rendered st ++ [(r, tree)]) st))
    end.

(** [t.addEventListener(type, l)] *)
Definition addEventListener (t : Target) (type : string) (l : Listener) : M unit :=
  modify (fun st =>
    emit (AAddListener t type l)
      (set_listeners (listeners st ++ [(t, type, l)]) st)).

(** [e.preventDefault()] *)
Definition preventDefault (e : Event) : Event :=
  {| ev_type := ev_type e;
     cancelable := cancelable e;
     defaultPrevented := defaultPrevented e || cancelable e;
     ev_error := ev_error e;
     ev_reason := ev_reason e |}.

(** ** The bodies of the callbacks *)

(** The event object is threaded through: a listener returns it as it
    leaves it. *)
Definition run_listener (l : Listener) (e : Event) : M Event :=
  match l with
  | LContextMenu => ret (preventDefault e)
  | LGlobalError =>
      console_error "Global error:" (ev_error e) ;;; ret e
  | LUnhandledRejection =>
      console_error "Unhandled promise rejection:" (ev_reason e) ;;; ret e
  end.

Definition run_reaction (r : Reaction) (err : Value) : M unit :=
  match r with
  | RInitFailed => console_error "Failed to initialize Tauri app:" err
  end.

(** ** The module body, lines 13-69 *)

Definition isTauri (h : Host) : bool :=
  strict_not_equals (window___TAURI__ h) VUndefined.

Definition main (h : Host) : M unit :=
  (if isTauri h then
     p <- invoke h "init_app" ;;
     promise_catch p RInitFailed ;;;
     ret tt
   else ret tt) ;;;
  el <- getElementById h "root" ;;
  root <- createRoot h el ;;
  render h root app_tree ;;;
  (if negb (to_boolean (env_DEV h)) then
     addEventListener Document "contextmenu" LContextMenu
   else ret tt) ;;;
  addEventListener Window "error" LGlobalError ;;;
  addEventListener Window "unhandledrejection" LUnhandledRejection.

(** ** What the host does with the script and after it *)

(** An exception nobody caught is reported by the host. *)
Definition report (e : Value) (st : State) : State :=
  emit (AUncaught e) (set_uncaught (uncaught st ++ [e]) st).

(** An event fired at the document bubbles on to the window. *)
Definition propagation_path (t : Target) : list Target :=
  match t with
  | Document => [Document; Window]
  | Window => [Window]
  end.

Definition listeners_on (t : Target) (type : string) (st : State) : list Listener :=
  map snd
    (filter (fun r => Target_eqb (fst (fst r)) t && String.eqb (snd (fst r)) type)
       (listeners st)).

Definition listeners_for (t : Target) (type : string) (st : State) : list Listener :=
  flat_map (fun t' => listeners_on t' type st) (propagation_path t).

(** The listeners run in registration order on the same event object; an
    exception thrown by one is reported and the next one still runs. *)
Fixpoint run_listeners (ls : list Listener) (e : Event) (st : State) : Event * State :=
  match ls with
  | [] => (e, st)
  | l :: ls' =>
      match run_listener l e st with
      | (Ok e', st') => run_listeners ls' e' st'
      | (Throw x, st') => run_listeners ls' e (report x st')
      end
  end.

(** [dispatch t e st]: the event as the listeners left it, and the state. *)
Definition dispatch (t : Target) (e : Event) (st : State) : Event * State :=
  run_listeners (listeners_for t (ev_type e) st) e st.

(** The events the host fires. *)
Definition contextmenu_event : Event :=
  {| ev_type := "contextmenu"; cancelable := true; defaultPrevented := false;
     ev_error := VUndefined; ev_reason := VUndefined |}.

Definition error_event (err : Value) : Event :=
  {| ev_type := "error"; cancelable := true; defaultPrevented := false;
     ev_error := err; ev_reason := VUndefined |}.

Definition unhandledrejection_event (reason : Value) : Event :=
  {| ev_type := "unhandledrejection"; cancelable := true;
     defaultPrevented := false; ev_error := VUndefined; ev_reason := reason |}.

(** A rejection with no reaction attached: the host fires
    [unhandledrejection] at the window and reports it. *)
Definition unhandled_rejection (reason : Value) (st : State) : State :=
  report reason (snd (dispatch Window (unhandledrejection_event reason) st)).

Definition reactions_on (p : nat) (st : State) : list (Reaction * nat) :=
  map (fun r => (snd (fst r), snd r))
    (filter (fun r => Nat.eqb (fst (fst r)) p) (reactions st)).

(** Settling promise [p] with [o]: each [.catch] reaction on it runs on a
    rejection and is skipped on a fulfilment, and the derived promise is
    settled in turn.  Derived promises are allocated after their source, so
    the chain under [p] is shorter than [next_promise]; that is the fuel
    [settle] gives. *)
Fixpoint settle_chain (fuel : nat) (p : nat) (o : Outcome) (st : State) : State :=
  match fuel with
  | O => st
  | S fuel' =>
      let st1 := emit (ASettle p o) (set_settled (settled st ++ [(p, o)]) st) in
      match reactions_on p st1, o with
      | [], Rejected e => unhandled_rejection e st1
      | rs, _ =>
          fold_left
            (fun s rd =>
               match o with
               | Fulfilled v => settle_chain fuel' (snd rd) (Fulfilled v) s
               | Rejected e =>
                   match run_reaction (fst rd) e s with
                   | (Ok _, s') => settle_chain fuel' (snd rd) (Fulfilled VUndefined) s'
                   | (Throw x, s') => settle_chain fuel' (snd rd) (Rejected x) s'
                   end
               end)
            rs st1
      end
  end.

Definition is_settled (p : nat) (st : State) : bool :=
  existsb (fun r => Nat.eqb (fst r) p) (settled st).

(** The promises [invoke] returned: the ones the host may settle. *)
Definition host_promise (p : nat) (st : State) : bool :=
  existsb (fun r => match snd r with Some q => Nat.eqb q p | None => false end)
    (invoked st).

(** The host settles a promise of its own at most once. *)
Definition settle (p : nat) (o : Outcome) (st : State) : State :=
  if host_promise p st && negb (is_settled p st)
  then settle_chain (next_promise st) p o st
  else st.

Inductive Stimulus : Type :=
| Settles (p : nat) (o : Outcome)
| Fires (t : Target) (e : Event).

Definition step (st : State) (s : Stimulus) : State :=
  match s with
  | Settles p o => settle p o st
  | Fires t e => snd (dispatch t e st)
  end.

Definition run_events (evs : list Stimulus) (st : State) : State :=
  fold_left step evs st.

(** Evaluating the module: an exception that leaves [main] is fired as an
    [error] event at the window and reported. *)
Definition run_script (h : Host) : State :=
  match main h initial with
  | (Ok _, st) => st
  | (Throw e, st) => report e (snd (dispatch Window (error_event e) st))
  end.

(** The state the script leaves when it runs to its last line. *)
Definition completes (h : Host) : Prop := fst (main h initial) = Ok tt.

(** A browser-like host: [createRoot] rejects a [null] container, nothing
    else throws. *)
Definition createRoot_error : Value :=
  VStr "createRoot(...): Target container is not a DOM element.".

Definition browser (tauri : option Value) (dev : Value)
    (els : list (string * nat)) : Host :=
  {| window_TAURI := tauri;
     env_DEV := dev;
     doc_elements := els;
     invoke_throws := fun _ => None;
     createRoot_throws :=
       fun c => match c with None => Some createRoot_error | Some _ => None end;
     render_throws := None |}.

(** The elements of the document carrying [id]. *)
Definition elements_with_id (id : string) (els : list (string * nat)) : list nat :=
  map snd (filter (fun e => String.eqb (fst e) id) els).

(** The part of the state no callback of this script writes to. *)
Record frame (st st' : State) : Prop :=
  { frame_next : next_promise st' = next_promise st;
    frame_invoked : invoked st' = invoked st;
    frame_reactions : reactions st' = reactions st;
    frame_listeners : listeners st' = listeners st;
    frame_rendered : rendered st' = rendered st }.

(** ** Measures over a run *)

(** The console entries written under [label]. *)
Definition count_label (label : string) (c : list (string * Value)) : nat :=
  List.length (filter (fun en => String.eqb (fst en) label) c).


(** What one listener writes for one event. *)
Definition listener_log (l : Listener) (e : Event) : list (string * Value) :=
  match l with
  | LContextMenu => []
  | LGlobalError => [("Global error:", ev_error e)]
  | LUnhandledRejection => [("Unhandled promise rejection:", ev_reason e)]
  end.

Definition is_contextmenu (l : Listener) : bool :=
  match l with LContextMenu => true | _ => false end.

(** The three labels the script passes to [console.error]. *)
Definition script_labels : list string :=
  ["Failed to initialize Tauri app:"; "Global error:";
   "Unhandled promise rejection:"].

(** ** Proof support *)

Arguments lookup_id : simpl never.
Arguments to_boolean : simpl never.

(** Splits on the five things the control flow of [main] depends on. *)
Ltac main_cases h :=
  unfold run_script, completes, main, bind, invoke, promise_catch,
    getElementById, createRoot, render, addEventListener, modify, ret;
  destruct (isTauri h) eqn:Htauri;
  [ destruct (invoke_throws h "init_app") eqn:Hinvoke | ];
  simpl;
  try (destruct (createRoot_throws h (lookup_id "root" (doc_elements h)))
         eqn:Hroot; simpl);
  try (destruct (render_throws h) eqn:Hrender; simpl);
  try (destruct (to_boolean (env_DEV h)) eqn:Hdev; simpl).

(** * Properties *)

(** ** Bridge detection *)

Lemma isTauri_false_iff (h : Host) :
  isTauri h = false <-> window___TAURI__ h = VUndefined.
Proof.
  unfold isTauri, strict_not_equals.
  destruct (window___TAURI__ h); simpl; split; intro H;
    try reflexivity; try discriminate.
Qed.

Lemma isTauri_true_iff (h : Host) :
  isTauri h = true <-> window___TAURI__ h <> VUndefined.
Proof.
  rewrite <- isTauri_false_iff. destruct (isTauri h); split; congruence.
Qed.

(** ** What the callbacks leave alone *)

Lemma frame_refl st : frame st st.
Proof. split; reflexivity. Qed.

Lemma frame_trans a b c : frame a b -> frame b c -> frame a c.
Proof. intros [] []; split; congruence. Qed.

Lemma run_listener_ok l e st :
  exists e', fst (run_listener l e st) = Ok e'.
Proof. destruct l; simpl; eexists; reflexivity. Qed.

Lemma run_listener_frame l e st : frame st (snd (run_listener l e st)).
Proof. destruct l; split; reflexivity. Qed.

Lemma run_reaction_ok r v st : fst (run_reaction r v st) = Ok tt.
Proof. destruct r; reflexivity. Qed.

Lemma run_reaction_frame r v st : frame st (snd (run_reaction r v st)).
Proof. destruct r; split; reflexivity. Qed.

Lemma report_frame e st : frame st (report e st).
Proof. split; reflexivity. Qed.

Lemma run_listeners_frame ls : forall e st, frame st (snd (run_listeners ls e st)).
Proof.
  induction ls as [|l ls IH]; intros e st; simpl.
  - apply frame_refl.
  - pose proof (run_listener_frame l e st) as F.
    destruct (run_listener l e st) as [[e'|x] st']; simpl in F.
    + eapply frame_trans; [exact F | apply IH].
    + eapply frame_trans; [exact F |].
      eapply frame_trans; [apply report_frame | apply IH].
Qed.

Lemma dispatch_frame t e st : frame st (snd (dispatch t e st)).
Proof. apply run_listeners_frame. Qed.

Lemma unhandled_rejection_frame v st : frame st (unhandled_rejection v st).
Proof.
  unfold unhandled_rejection.
  eapply frame_trans; [apply dispatch_frame | apply report_frame].
Qed.

Lemma fold_left_frame {A} (f : State -> A -> State) (xs : list A) :
  (forall s x, frame s (f s x)) -> forall st, frame st (fold_left f xs st).
Proof.
  intros Hf. induction xs as [|x xs IH]; intros st; simpl.
  - apply frame_refl.
  - eapply frame_trans; [apply Hf | apply IH].
Qed.

Lemma settle_chain_frame fuel : forall p o st, frame st (settle_chain fuel p o st).
Proof.
  induction fuel as [|fuel IH]; intros p o st; simpl.
  - apply frame_refl.
  - set (st1 := emit (ASettle p o) (set_settled (settled st ++ [(p, o)]) st)).
    assert (F1 : frame st st1) by (split; reflexivity).
    eapply frame_trans; [exact F1 |].
    assert (Ffold : forall rs,
      frame st1 (fold_left
        (fun s rd =>
           match o with
           | Fulfilled v => settle_chain fuel (snd rd) (Fulfilled v) s
           | Rejected e =>
               match run_reaction (fst rd) e s with
               | (Ok _, s') => settle_chain fuel (snd rd) (Fulfilled VUndefined) s'
               | (Throw x, s') => settle_chain fuel (snd rd) (Rejected x) s'
               end
           end) rs st1)).
    { intros rs. apply fold_left_frame. intros s rd. destruct o as [v|e].
      - apply IH.
      - pose proof (run_reaction_frame (fst rd) e s) as F.
        destruct (run_reaction (fst rd) e s) as [[u|x] s']; simpl in F;
          (eapply frame_trans; [exact F | apply IH]). }
    destruct (reactions_on p st1) as [|rd rs] eqn:E.
    + destruct o as [v|e].
      * apply (Ffold []).
      * apply unhandled_rejection_frame.
    + apply (Ffold (rd :: rs)).
Qed.

Lemma settle_frame p o st : frame st (settle p o st).
Proof.
  unfold settle. destruct (host_promise p st && negb (is_settled p st)).
  - apply settle_chain_frame.
  - apply frame_refl.
Qed.

Lemma step_frame st s : frame st (step st s).
Proof. destruct s; simpl; [apply settle_frame | apply dispatch_frame]. Qed.

Lemma run_events_frame evs : forall st, frame st (run_events evs st).
Proof. unfold run_events. apply fold_left_frame, step_frame. Qed.

(** ** The script, path by path *)

Lemma completes_inv (h : Host) :
  completes h ->
  (isTauri h = true -> invoke_throws h "init_app" = None) /\
  createRoot_throws h (lookup_id "root" (doc_elements h)) = None /\
  render_throws h = None.
Proof.
  main_cases h; intros H; try discriminate H; repeat split; congruence.
Qed.

Lemma run_script_completes (h : Host) :
  completes h -> run_script h = snd (main h initial).
Proof.
  unfold completes, run_script. destruct (main h initial) as [[u|e] st]; simpl.
  - reflexivity.
  - discriminate.
Qed.

Lemma run_script_frame (h : Host) : frame (snd (main h initial)) (run_script h).
Proof.
  unfold run_script. destruct (main h initial) as [[u|e] st]; simpl.
  - apply frame_refl.
  - eapply frame_trans; [apply dispatch_frame | apply report_frame].
Qed.

(** The state every later stimulus sees keeps what the script set up. *)
Lemma lifetime_frame (h : Host) (evs : list Stimulus) :
  frame (snd (main h initial)) (run_events evs (run_script h)).
Proof.
  eapply frame_trans; [apply run_script_frame | apply run_events_frame].
Qed.

Lemma invoked_main (h : Host) :
  invoked (snd (main h initial)) =
  if isTauri h then
    [("init_app",
      match invoke_throws h "init_app" with Some _ => None | None => Some 0 end)]
  else [].
Proof. main_cases h; reflexivity. Qed.

Lemma listeners_main (h : Host) :
  completes h ->
  listeners (snd (main h initial)) =
  (if to_boolean (env_DEV h) then []
   else [(Document, "contextmenu", LContextMenu)]) ++
  [(Window, "error", LGlobalError);
   (Window, "unhandledrejection", LUnhandledRejection)].
Proof. main_cases h; intros H; try discriminate H; reflexivity. Qed.

Lemma listeners_main_throw (h : Host) (e : Value) :
  fst (main h initial) = Throw e -> listeners (snd (main h initial)) = [].
Proof. main_cases h; intros H; try discriminate H; reflexivity. Qed.

Lemma rendered_main (h : Host) :
  rendered (snd (main h initial)) =
  match fst (main h initial) with
  | Ok _ => [({| container := lookup_id "root" (doc_elements h) |}, app_tree)]
  | Throw _ => []
  end.
Proof. main_cases h; reflexivity. Qed.

Lemma reactions_main (h : Host) :
  isTauri h = true -> invoke_throws h "init_app" = None ->
  reactions (snd (main h initial)) = [(0, RInitFailed, 1)] /\
  next_promise (snd (main h initial)) = 2.
Proof.
  intros Ht Hi. main_cases h; try discriminate; split; reflexivity.
Qed.

(** A run in the Tauri shell, production build: the backend rejects, an
    error is thrown later, and a second settlement of the same promise is
    ignored. *)
Example run_in_tauri :
  let st :=
    run_events
      [Settles 0 (Rejected (VStr "no backend"));
       Fires Window (error_event (VStr "late"));
       Settles 0 (Rejected (VStr "again"))]
      (run_script (browser (Some (VObj 1)) (VBool false) [("root", 3)])) in
  console st =
    [("Failed to initialize Tauri app:", VStr "no backend");
     ("Global error:", VStr "late")] /\
  uncaught st = [] /\
  rendered st = [({| container := Some 3 |}, app_tree)].
Proof. repeat split; reflexivity. Qed.

(** A run in a plain browser whose page has no [#root]: the script stops at
    [createRoot], and a later error finds no listener. *)
Example run_without_anchor :
  let st :=
    run_events [Fires Window (error_event (VStr "late"))]
      (run_script (browser None (VBool false) [])) in
  console st = [] /\ uncaught st = [createRoot_error] /\
  listeners st = [] /\ invoked st = [].
Proof. repeat split; reflexivity. Qed.

(** ** Claims *)

(** C2. When the bridge binding reads [undefined], detection is false and
    [invoke] is never called, neither by the script nor by anything that
    runs later; conversely any call of [invoke] on record means detection
    returned true. *)
Theorem init_only_issued_with_bridge (h : Host) (evs : list Stimulus) :
  let st := run_events evs (run_script h) in
  (window___TAURI__ h = VUndefined -> isTauri h = false /\ invoked st = []) /\
  (forall call, In call (invoked st) ->
     isTauri h = true /\ fst call = "init_app").
Proof.
  intros st. subst st.
  rewrite (frame_invoked _ _ (lifetime_frame h evs)), invoked_main.
  split.
  - intros Hu. apply isTauri_false_iff in Hu. rewrite Hu. split; reflexivity.
  - intros call Hin. destruct (isTauri h).
    + destruct Hin as [<-|[]]. split; reflexivity.
    + destruct Hin.
Qed.

Lemma init_only_issued_with_bridge_witness :
  invoked
    (run_events [Fires Window (error_event VNull); Settles 0 (Rejected VNull)]
       (run_script (browser None (VBool false) [("root", 7)]))) = [].
Proof.
  exact (proj2 (proj1 (init_only_issued_with_bridge
                         (browser None (VBool false) [("root", 7)])
                         [Fires Window (error_event VNull);
                          Settles 0 (Rejected VNull)])
                      eq_refl)).
Defined.

(** C9. Detection is [!== undefined] and nothing more: whatever else the
    binding holds ([null], [false], [0], an object), the bridge counts as
    present and the first thing the script does is call
    [invoke('init_app')]; detection is false for [undefined] alone. *)
Theorem bridge_present_unless_undefined (h : Host) :
  (window___TAURI__ h <> VUndefined ->
     isTauri h = true /\
     map fst (invoked (run_script h)) = ["init_app"] /\
     exists rest, trace (run_script h) = AInvoke "init_app" :: rest) /\
  (isTauri h = false <-> window___TAURI__ h = VUndefined).
Proof.
  split; [| apply isTauri_false_iff].
  intros Hne. apply isTauri_true_iff in Hne. split; [exact Hne|]. split.
  - rewrite (frame_invoked _ _ (run_script_frame h)), invoked_main, Hne.
    reflexivity.
  - main_cases h; try discriminate; eexists; reflexivity.
Qed.

Lemma bridge_present_unless_undefined_witness :
  Forall (fun v =>
            let h := browser (Some v) (VBool true) [] in
            isTauri h = true /\
            map fst (invoked (run_script h)) = ["init_app"] /\
            exists rest, trace (run_script h) = AInvoke "init_app" :: rest)
    [VNull; VBool false; VNum 0; VObj 0; VStr ""; VNaN].
Proof.
  repeat (apply Forall_cons;
    [ match goal with
      | |- let h := browser (Some ?v) ?d ?els in _ =>
          exact (proj1 (bridge_present_unless_undefined (browser (Some v) d els))
                   ltac:(discriminate))
      end | ]).
  apply Forall_nil.
Defined.

(** ** The [init_app] promise *)

(** What settling the promise of [invoke('init_app')] does, in any state
    that still has the script's single [.catch] registration. *)
Lemma settle_init_rejected (st : State) (e : Value) :
  invoked st = [("init_app", Some 0)] ->
  reactions st = [(0, RInitFailed, 1)] ->
  next_promise st = 2 ->
  is_settled 0 st = false ->
  console (settle 0 (Rejected e) st) =
    console st ++ [("Failed to initialize Tauri app:", e)] /\
  uncaught (settle 0 (Rejected e) st) = uncaught st /\
  settled (settle 0 (Rejected e) st) =
    settled st ++ [(0, Rejected e); (1, Fulfilled VUndefined)].
Proof.
  intros Hi Hr Hn Hs. unfold settle, host_promise.
  rewrite Hi, Hs, Hn. simpl. unfold reactions_on. simpl.
  repeat (rewrite Hr; simpl).
  rewrite <- app_assoc. repeat split; reflexivity.
Qed.

Lemma settle_init_fulfilled (st : State) (v : Value) :
  invoked st = [("init_app", Some 0)] ->
  reactions st = [(0, RInitFailed, 1)] ->
  next_promise st = 2 ->
  is_settled 0 st = false ->
  console (settle 0 (Fulfilled v) st) = console st /\
  uncaught (settle 0 (Fulfilled v) st) = uncaught st /\
  settled (settle 0 (Fulfilled v) st) =
    settled st ++ [(0, Fulfilled v); (1, Fulfilled v)].
Proof.
  intros Hi Hr Hn Hs. unfold settle, host_promise.
  rewrite Hi, Hs, Hn. simpl. unfold reactions_on. simpl.
  repeat (rewrite Hr; simpl).
  rewrite <- app_assoc. repeat split; reflexivity.
Qed.

(** Once the bridge is detected and [invoke] has returned, every later state
    holds the one call, its promise and the one reaction on it. *)
Lemma init_dispatched (h : Host) (evs : list Stimulus) :
  isTauri h = true -> invoke_throws h "init_app" = None ->
  let st := run_events evs (run_script h) in
  invoked st = [("init_app", Some 0)] /\
  reactions st = [(0, RInitFailed, 1)] /\
  next_promise st = 2.
Proof.
  intros Ht Hi st. subst st.
  pose proof (lifetime_frame h evs) as F.
  destruct (reactions_main h Ht Hi) as [Hr Hn].
  rewrite (frame_invoked _ _ F), (frame_reactions _ _ F), (frame_next _ _ F).
  rewrite invoked_main, Ht, Hi. auto.
Qed.

(** C1. With the bridge present and [invoke] having returned its promise,
    a rejection of that promise with [E], at any later moment, appends
    exactly one console entry, the one of the [.catch] callback, carrying
    [E]; the callback returns normally, the derived promise is fulfilled,
    nothing is reported as unhandled, and what was mounted and registered
    stays as it was. *)
Theorem init_rejection_logged_once (h : Host) (evs : list Stimulus) (E : Value) :
  isTauri h = true ->
  invoke_throws h "init_app" = None ->
  let st := run_events evs (run_script h) in
  is_settled 0 st = false ->
  let st' := settle 0 (Rejected E) st in
  console st' = console st ++ [("Failed to initialize Tauri app:", E)] /\
  fst (run_reaction RInitFailed E st) = Ok tt /\
  settled st' = settled st ++ [(0, Rejected E); (1, Fulfilled VUndefined)] /\
  uncaught st' = uncaught st /\
  rendered st' = rendered st /\
  listeners st' = listeners st.
Proof.
  intros Ht Hi st Hs st'.
  destruct (init_dispatched h evs Ht Hi) as (Hinv & Hr & Hn).
  destruct (settle_init_rejected st E Hinv Hr Hn Hs) as (Hc & Hu & Hset).
  pose proof (settle_frame 0 (Rejected E) st) as F.
  repeat split; try assumption.
  - apply (frame_rendered _ _ F).
  - apply (frame_listeners _ _ F).
Qed.

Lemma init_rejection_logged_once_witness :
  let h := browser (Some (VObj 1)) (VBool false) [("root", 3)] in
  let st := run_events [Fires Document contextmenu_event] (run_script h) in
  console (settle 0 (Rejected (VStr "backend down")) st) =
    [("Failed to initialize Tauri app:", VStr "backend down")].
Proof.
  exact (proj1 (init_rejection_logged_once
                  (browser (Some (VObj 1)) (VBool false) [("root", 3)])
                  [Fires Document contextmenu_event]
                  (VStr "backend down") eq_refl eq_refl eq_refl)).
Defined.

(** C7. With the bridge present, a fulfilment of the [init_app] promise
    runs no callback of the script: the console and the list of unhandled
    errors are what they were. *)
Theorem init_success_not_logged (h : Host) (evs : list Stimulus) (v : Value) :
  isTauri h = true ->
  invoke_throws h "init_app" = None ->
  let st := run_events evs (run_script h) in
  is_settled 0 st = false ->
  let st' := settle 0 (Fulfilled v) st in
  console st' = console st /\
  uncaught st' = uncaught st /\
  settled st' = settled st ++ [(0, Fulfilled v); (1, Fulfilled v)].
Proof.
  intros Ht Hi st Hs st'.
  destruct (init_dispatched h evs Ht Hi) as (Hinv & Hr & Hn).
  exact (settle_init_fulfilled st v Hinv Hr Hn Hs).
Qed.

Lemma init_success_not_logged_witness :
  let h := browser (Some (VObj 1)) (VBool false) [("root", 3)] in
  console (settle 0 (Fulfilled VNull) (run_events [] (run_script h))) = [].
Proof.
  exact (proj1 (init_success_not_logged
                  (browser (Some (VObj 1)) (VBool false) [("root", 3)])
                  [] VNull eq_refl eq_refl eq_refl)).
Defined.

(** C3. With the bridge present and a script that runs to its end, the
    effects come in source order: the call of [invoke], the [.catch]
    registration, then at once the anchor lookup, [createRoot] and
    [render].  When the script ends the promise is still pending, and no
    outcome it gets later changes what was rendered. *)
Theorem mount_follows_dispatch_unawaited (h : Host) :
  isTauri h = true ->
  completes h ->
  let st := snd (main h initial) in
  let el := lookup_id "root" (doc_elements h) in
  (exists rest,
     trace st =
       [AInvoke "init_app"; APromise 0; ACatch 0 RInitFailed 1;
        AGetElementById "root" el; ACreateRoot el;
        ARender {| container := el |} app_tree] ++ rest) /\
  settled st = [] /\
  rendered st = [({| container := el |}, app_tree)] /\
  forall o, rendered (settle 0 o st) = rendered st.
Proof.
  intros Ht Hc st el. subst st el. split; [| split; [| split]].
  - revert Hc. main_cases h; intros Hc; try discriminate;
      eexists; reflexivity.
  - revert Hc. main_cases h; intros Hc; try discriminate; reflexivity.
  - rewrite rendered_main. unfold completes in Hc. rewrite Hc. reflexivity.
  - intros o. apply (frame_rendered _ _ (settle_frame 0 o _)).
Qed.

Lemma mount_follows_dispatch_unawaited_witness :
  let h := browser (Some (VObj 1)) (VBool true) [("root", 3)] in
  settled (snd (main h initial)) = [] /\
  rendered (snd (main h initial)) = [({| container := Some 3 |}, app_tree)].
Proof.
  pose proof (mount_follows_dispatch_unawaited
                (browser (Some (VObj 1)) (VBool true) [("root", 3)])
                eq_refl eq_refl) as H.
  split; [exact (proj1 (proj2 H)) | exact (proj1 (proj2 (proj2 H)))].
Defined.

(** ** The listeners *)

Lemma listeners_lifetime (h : Host) (evs : list Stimulus) :
  completes h ->
  listeners (run_events evs (run_script h)) =
  (if to_boolean (env_DEV h) then []
   else [(Document, "contextmenu", LContextMenu)]) ++
  [(Window, "error", LGlobalError);
   (Window, "unhandledrejection", LUnhandledRejection)].
Proof.
  intros Hc. rewrite (frame_listeners _ _ (lifetime_frame h evs)).
  apply listeners_main, Hc.
Qed.

(** C4. After a script that ran to its end, and whatever happened since, a
    context-menu event reaching the document has its default action
    cancelled when [import.meta.env.DEV] is falsy (production build) and
    keeps it when [DEV] is truthy (development build). *)
Theorem contextmenu_suppressed_unless_dev (h : Host) (evs : list Stimulus) :
  completes h ->
  let st := run_events evs (run_script h) in
  let e := fst (dispatch Document contextmenu_event st) in
  (to_boolean (env_DEV h) = false -> defaultPrevented e = true) /\
  (to_boolean (env_DEV h) = true -> defaultPrevented e = false).
Proof.
  intros Hc st e. subst e. unfold dispatch, listeners_for, listeners_on.
  subst st. rewrite (listeners_lifetime h evs Hc).
  destruct (to_boolean (env_DEV h)); simpl; split; intros H;
    try discriminate H; reflexivity.
Qed.

Lemma contextmenu_suppressed_unless_dev_witness :
  let prod := browser None (VBool false) [("root", 3)] in
  let dev := browser None (VBool true) [("root", 3)] in
  let evs := [Fires Window (error_event VNull); Fires Document contextmenu_event] in
  defaultPrevented
    (fst (dispatch Document contextmenu_event (run_events evs (run_script prod))))
    = true /\
  defaultPrevented
    (fst (dispatch Document contextmenu_event (run_events evs (run_script dev))))
    = false.
Proof.
  split.
  - exact (proj1 (contextmenu_suppressed_unless_dev
                    (browser None (VBool false) [("root", 3)])
                    [Fires Window (error_event VNull);
                     Fires Document contextmenu_event] eq_refl) eq_refl).
  - exact (proj2 (contextmenu_suppressed_unless_dev
                    (browser None (VBool true) [("root", 3)])
                    [Fires Window (error_event VNull);
                     Fires Document contextmenu_event] eq_refl) eq_refl).
Defined.

(** C6. After a script that ran to its end, and whatever happened since,
    an [error] event with error [v] and an [unhandledrejection] event with
    reason [v] each append exactly one console entry carrying [v]; the
    listener returns normally, and promises, registrations, the mounted
    tree and the list of reported exceptions are left as they were. *)
Theorem global_guards_log_once (h : Host) (evs : list Stimulus) (v : Value) :
  completes h ->
  let st := run_events evs (run_script h) in
  let st_e := snd (dispatch Window (error_event v) st) in
  let st_r := snd (dispatch Window (unhandledrejection_event v) st) in
  (console st_e = console st ++ [("Global error:", v)] /\
   console st_r = console st ++ [("Unhandled promise rejection:", v)]) /\
  (fst (run_listener LGlobalError (error_event v) st) = Ok (error_event v) /\
   fst (run_listener LUnhandledRejection (unhandledrejection_event v) st)
     = Ok (unhandledrejection_event v)) /\
  (frame st st_e /\ settled st_e = settled st /\ uncaught st_e = uncaught st) /\
  (frame st st_r /\ settled st_r = settled st /\ uncaught st_r = uncaught st).
Proof.
  intros Hc st st_e st_r. subst st_e st_r.
  pose proof (listeners_lifetime h evs Hc) as Hl. fold st in Hl.
  unfold dispatch, listeners_for, listeners_on. rewrite Hl.
  destruct (to_boolean (env_DEV h)); simpl;
    repeat split; reflexivity.
Qed.

Lemma global_guards_log_once_witness :
  let h := browser None (VBool false) [("root", 3)] in
  let st := run_script h in
  console (snd (dispatch Window (error_event (VStr "oops")) st))
    = [("Global error:", VStr "oops")] /\
  console (snd (dispatch Window (unhandledrejection_event (VStr "oops")) st))
    = [("Unhandled promise rejection:", VStr "oops")].
Proof.
  exact (proj1 (global_guards_log_once
                  (browser None (VBool false) [("root", 3)]) []
                  (VStr "oops") eq_refl)).
Defined.

(** ** The mount *)

Lemma lookup_id_head (id : string) (els : list (string * nat)) :
  lookup_id id els = hd_error (elements_with_id id els).
Proof.
  unfold lookup_id, elements_with_id.
  induction els as [|[i n] els IH]; simpl.
  - reflexivity.
  - destruct (String.eqb i id); simpl; [reflexivity | exact IH].
Qed.

Lemma rendered_lifetime (h : Host) (evs : list Stimulus) :
  rendered (run_events evs (run_script h)) =
  match fst (main h initial) with
  | Ok _ => [({| container := lookup_id "root" (doc_elements h) |}, app_tree)]
  | Throw _ => []
  end.
Proof.
  rewrite (frame_rendered _ _ (lifetime_frame h evs)). apply rendered_main.
Qed.

(** The whole trace of a script that runs to its end. *)
Lemma trace_main_completes (h : Host) :
  completes h ->
  let el := lookup_id "root" (doc_elements h) in
  trace (snd (main h initial)) =
    (if isTauri h
     then [AInvoke "init_app"; APromise 0; ACatch 0 RInitFailed 1]
     else []) ++
    [AGetElementById "root" el; ACreateRoot el;
     ARender {| container := el |} app_tree] ++
    (if to_boolean (env_DEV h) then []
     else [AAddListener Document "contextmenu" LContextMenu]) ++
    [AAddListener Window "error" LGlobalError;
     AAddListener Window "unhandledrejection" LUnhandledRejection].
Proof. main_cases h; intros H; try discriminate H; reflexivity. Qed.

(** C5. The record given to the notification renderer has duration 4000,
    different primary colours for success and error, and one secondary
    colour for both.  It is the only toast configuration in any tree the
    script renders, the script renders at most once (exactly once when it
    runs to its end), and nothing that happens later touches what was
    rendered. *)
Theorem toast_configuration_fixed (h : Host) (evs : list Stimulus) :
  let st := run_events evs (run_script h) in
  (duration toastOptions = 4000%Z /\
   primary (iconTheme (success toastOptions))
     <> primary (iconTheme (error toastOptions)) /\
   secondary (iconTheme (success toastOptions))
     = secondary (iconTheme (error toastOptions))) /\
  (forall r t, In (r, t) (rendered st) -> toast_configs t = [toastOptions]) /\
  List.length (rendered st) <= 1 /\
  rendered st = rendered (run_script h) /\
  (completes h -> exists r, rendered st = [(r, app_tree)]).
Proof.
  intros st. subst st. split; [| split; [| split; [| split]]].
  - repeat split; try reflexivity; discriminate.
  - intros r t. rewrite rendered_lifetime.
    destruct (fst (main h initial)); simpl; intros Hin.
    + destruct Hin as [Heq|[]]. injection Heq as _ <-. reflexivity.
    + destruct Hin.
  - rewrite rendered_lifetime. destruct (fst (main h initial)); simpl; lia.
  - rewrite rendered_lifetime, (frame_rendered _ _ (run_script_frame h)).
    symmetry. apply rendered_main.
  - intros Hc. rewrite rendered_lifetime. unfold completes in Hc. rewrite Hc.
    eexists. reflexivity.
Qed.

Lemma toast_configuration_fixed_witness :
  let h := browser None (VBool true) [("root", 3)] in
  let evs := [Fires Window (error_event VNull)] in
  toast_configs app_tree = [toastOptions] /\
  exists r, rendered (run_events evs (run_script h)) = [(r, app_tree)].
Proof.
  pose proof (toast_configuration_fixed
                (browser None (VBool true) [("root", 3)])
                [Fires Window (error_event VNull)]) as H.
  split.
  - exact (proj1 (proj2 H) {| container := Some 3 |} app_tree
             (or_introl eq_refl)).
  - exact (proj2 (proj2 (proj2 (proj2 H))) eq_refl).
Defined.

(** C8. The result of [getElementById('root')] goes to [createRoot] as it
    is.  When the document has exactly one element with that id and neither
    [createRoot] nor [render] throws, the tree is rendered into that element
    once, and stays the only rendering.  When the lookup gives [null] and
    [createRoot] throws on it, the exception leaves the script: nothing is
    rendered, no listener is registered, no callback of the script logs it,
    and the host reports it as uncaught. *)
Theorem mount_unchecked_once_or_fatal (h : Host) (evs : list Stimulus) :
  (isTauri h = true -> invoke_throws h "init_app" = None) ->
  let st := run_events evs (run_script h) in
  let found := lookup_id "root" (doc_elements h) in
  (exists before after,
     trace (snd (main h initial)) =
       before ++ [AGetElementById "root" found; ACreateRoot found] ++ after) /\
  (forall el,
     elements_with_id "root" (doc_elements h) = [el] ->
     createRoot_throws h (Some el) = None ->
     render_throws h = None ->
     completes h /\
     rendered st = [({| container := Some el |}, app_tree)]) /\
  (forall e,
     found = None ->
     createRoot_throws h None = Some e ->
     fst (main h initial) = Throw e /\
     rendered st = [] /\
     listeners st = [] /\
     console (run_script h) = [] /\
     uncaught (run_script h) = [e]).
Proof.
  intros Hinv st found. subst st found. split; [| split].
  - revert Hinv. main_cases h; intros Hinv;
      try (specialize (Hinv eq_refl); discriminate Hinv).
    all: try (exists [AInvoke "init_app"; APromise 0; ACatch 0 RInitFailed 1];
              eexists; reflexivity).
    all: exists []; eexists; reflexivity.
  - intros el Hone Hcr Hrd.
    assert (Hfound : lookup_id "root" (doc_elements h) = Some el)
      by (rewrite lookup_id_head, Hone; reflexivity).
    assert (Hc : completes h).
    { revert Hinv. main_cases h; intros Hinv;
        try (specialize (Hinv eq_refl); discriminate Hinv);
        try reflexivity; try rewrite Hfound in Hroot; congruence. }
    split; [exact Hc |].
    rewrite rendered_lifetime. unfold completes in Hc. rewrite Hc, Hfound.
    reflexivity.
  - intros e Hnone Hthrow.
    assert (Hmain : fst (main h initial) = Throw e).
    { revert Hinv. main_cases h; intros Hinv;
        try (specialize (Hinv eq_refl); discriminate Hinv);
        rewrite Hnone in Hroot; congruence. }
    split; [exact Hmain |]. split; [| split; [| split]].
    + rewrite rendered_lifetime, Hmain. reflexivity.
    + rewrite (frame_listeners _ _ (lifetime_frame h evs)).
      apply (listeners_main_throw h e Hmain).
    + revert Hinv Hmain. main_cases h; intros Hinv Hmain;
        try discriminate Hmain; reflexivity.
    + revert Hinv Hmain. main_cases h; intros Hinv Hmain;
        try discriminate Hmain; congruence.
Qed.

Lemma mount_unchecked_once_or_fatal_witness :
  let ok := browser (Some (VObj 1)) (VBool false) [("app", 2); ("root", 3)] in
  let bad := browser (Some (VObj 1)) (VBool false) [("app", 2)] in
  let evs := [Settles 0 (Rejected VNull); Fires Window (error_event VNull)] in
  rendered (run_events evs (run_script ok))
    = [({| container := Some 3 |}, app_tree)] /\
  fst (main bad initial) = Throw createRoot_error /\
  rendered (run_events evs (run_script bad)) = [] /\
  uncaught (run_script bad) = [createRoot_error].
Proof.
  pose proof (mount_unchecked_once_or_fatal
                (browser (Some (VObj 1)) (VBool false) [("app", 2); ("root", 3)])
                [Settles 0 (Rejected VNull); Fires Window (error_event VNull)]
                (fun _ => eq_refl)) as Hok.
  pose proof (mount_unchecked_once_or_fatal
                (browser (Some (VObj 1)) (VBool false) [("app", 2)])
                [Settles 0 (Rejected VNull); Fires Window (error_event VNull)]
                (fun _ => eq_refl)) as Hbad.
  split.
  - exact (proj2 (proj1 (proj2 Hok) 3 eq_refl eq_refl eq_refl)).
  - pose proof (proj2 (proj2 Hbad) createRoot_error eq_refl eq_refl) as H.
    split; [exact (proj1 H) |].
    split; [exact (proj1 (proj2 H)) |].
    exact (proj2 (proj2 (proj2 (proj2 H)))).
Defined.

(** C10. In a script that runs to its end the two window listeners are the
    last two effects, after the [invoke] call and after [render].  When the
    script throws instead, which only the [invoke] call, [createRoot] or
    [render] can make it do, no listener has been registered yet: the
    exception is reported by the host and no console entry is written for
    it. *)
Theorem guards_registered_after_mount (h : Host) :
  (completes h ->
   let el := lookup_id "root" (doc_elements h) in
   trace (snd (main h initial)) =
     (if isTauri h
      then [AInvoke "init_app"; APromise 0; ACatch 0 RInitFailed 1]
      else []) ++
     [AGetElementById "root" el; ACreateRoot el;
      ARender {| container := el |} app_tree] ++
     (if to_boolean (env_DEV h) then []
      else [AAddListener Document "contextmenu" LContextMenu]) ++
     [AAddListener Window "error" LGlobalError;
      AAddListener Window "unhandledrejection" LUnhandledRejection]) /\
  (forall e,
     fst (main h initial) = Throw e ->
     (isTauri h = true /\ invoke_throws h "init_app" = Some e \/
      createRoot_throws h (lookup_id "root" (doc_elements h)) = Some e \/
      render_throws h = Some e) /\
     listeners (snd (main h initial)) = [] /\
     listeners_for Window "error" (snd (main h initial)) = [] /\
     console (run_script h) = [] /\
     uncaught (run_script h) = [e]).
Proof.
  split; [apply trace_main_completes |].
  intros e He. split; [| split; [| split; [| split]]].
  - revert He. main_cases h; intros He; try discriminate He;
      injection He as <-; auto.
  - apply (listeners_main_throw h e He).
  - unfold listeners_for, listeners_on.
    rewrite (listeners_main_throw h e He). reflexivity.
  - revert He. main_cases h; intros He; try discriminate He; reflexivity.
  - revert He. main_cases h; intros He; try discriminate He;
      injection He as <-; reflexivity.
Qed.

Lemma guards_registered_after_mount_witness :
  let ok := browser (Some VNull) (VBool false) [("root", 3)] in
  let thrower :=
    {| window_TAURI := Some VNull; env_DEV := VBool false;
       doc_elements := [("root", 3)];
       invoke_throws := fun _ => None;
       createRoot_throws := fun _ => None;
       render_throws := Some (VStr "render failed") |} in
  trace (snd (main ok initial)) =
    [AInvoke "init_app"; APromise 0; ACatch 0 RInitFailed 1;
     AGetElementById "root" (Some 3); ACreateRoot (Some 3);
     ARender {| container := Some 3 |} app_tree;
     AAddListener Document "contextmenu" LContextMenu;
     AAddListener Window "error" LGlobalError;
     AAddListener Window "unhandledrejection" LUnhandledRejection] /\
  console (run_script thrower) = [] /\
  uncaught (run_script thrower) = [VStr "render failed"].
Proof.
  split.
  - exact (proj1 (guards_registered_after_mount
                    (browser (Some VNull) (VBool false) [("root", 3)]))
             eq_refl).
  - pose proof (proj2 (guards_registered_after_mount
                    {| window_TAURI := Some VNull; env_DEV := VBool false;
                       doc_elements := [("root", 3)];
                       invoke_throws := fun _ => None;
                       createRoot_throws := fun _ => None;
                       render_throws := Some (VStr "render failed") |})
                  (VStr "render failed") eq_refl) as H.
    exact (proj2 (proj2 (proj2 H))).
Defined.

(** * Beyond the claims: the whole run *)

(** ** One dispatch *)

Lemma preventDefault_idem (e : Event) :
  preventDefault (preventDefault e) = preventDefault e.
Proof.
  unfold preventDefault; simpl. f_equal.
  destruct (defaultPrevented e), (cancelable e); reflexivity.
Qed.

Lemma run_listeners_log (ls : list Listener) : forall e st,
  console (snd (run_listeners ls e st)) =
    console st ++ flat_map (fun l => listener_log l e) ls /\
  uncaught (snd (run_listeners ls e st)) = uncaught st /\
  settled (snd (run_listeners ls e st)) = settled st.
Proof.
  induction ls as [|l ls IH]; intros e st; simpl.
  - rewrite app_nil_r. auto.
  - destruct l; simpl.
    + destruct (IH (preventDefault e) st) as (Hc & Hu & Hs).
      rewrite Hc, Hu, Hs. repeat split.
    + match goal with |- context [run_listeners ls e ?s] =>
        destruct (IH e s) as (Hc & Hu & Hs) end.
      rewrite Hc, Hu, Hs. simpl. rewrite <- app_assoc. auto.
    + match goal with |- context [run_listeners ls e ?s] =>
        destruct (IH e s) as (Hc & Hu & Hs) end.
      rewrite Hc, Hu, Hs. simpl. rewrite <- app_assoc. auto.
Qed.

Lemma run_listeners_event (ls : list Listener) : forall e st,
  fst (run_listeners ls e st) =
  if existsb is_contextmenu ls then preventDefault e else e.
Proof.
  induction ls as [|l ls IH]; intros e st; simpl.
  - reflexivity.
  - destruct l; simpl; rewrite IH.
    + rewrite preventDefault_idem. destruct (existsb is_contextmenu ls); reflexivity.
    + reflexivity.
    + reflexivity.
Qed.

Lemma run_listeners_silent (ls : list Listener) : forall e st,
  existsb (fun l => negb (is_contextmenu l)) ls = false ->
  snd (run_listeners ls e st) = st.
Proof.
  induction ls as [|l ls IH]; intros e st H; simpl in *.
  - reflexivity.
  - destruct l; simpl in *; try discriminate H. apply IH, H.
Qed.

(** The listeners an event of type [ty] fired at [t] meets, in every state
    the run can reach. *)
Lemma listeners_for_lifetime (h : Host) (st : State) (t : Target) (ty : string) :
  frame (snd (main h initial)) st ->
  listeners_for t ty st =
  match fst (main h initial) with
  | Throw _ => []
  | Ok _ =>
      (if match t with Document => true | Window => false end
          && negb (to_boolean (env_DEV h)) && String.eqb "contextmenu" ty
       then [LContextMenu] else []) ++
      (if String.eqb "error" ty then [LGlobalError] else []) ++
      (if String.eqb "unhandledrejection" ty then [LUnhandledRejection] else [])
  end.
Proof.
  intros F. unfold listeners_for, listeners_on.
  rewrite (frame_listeners _ _ F).
  destruct (fst (main h initial)) as [[]|x] eqn:Hm.
  - rewrite (listeners_main h Hm).
    destruct t, (to_boolean (env_DEV h)); cbn -[String.eqb];
      destruct (String.eqb "contextmenu" ty), (String.eqb "error" ty),
        (String.eqb "unhandledrejection" ty); reflexivity.
  - rewrite (listeners_main_throw h x Hm). destruct t; reflexivity.
Qed.

(** ** One settlement *)

Lemma is_settled_app (p : nat) (st : State) (xs : list (nat * Outcome)) (o : Outcome) :
  is_settled p (set_settled (settled st ++ (p, o) :: xs) st) = true.
Proof.
  unfold is_settled. simpl. rewrite existsb_app. simpl.
  rewrite Nat.eqb_refl. apply orb_true_r.
Qed.

(** In a reachable state a settlement either does nothing, or it is the
    first settlement of the [init_app] promise. *)
Lemma settle_cases (h : Host) (st : State) (p : nat) (o : Outcome) :
  frame (snd (main h initial)) st ->
  settle p o st = st \/
  (isTauri h = true /\ invoke_throws h "init_app" = None /\
   p = 0 /\ is_settled 0 st = false /\
   console (settle p o st) =
     console st ++ match o with
                   | Rejected e => [("Failed to initialize Tauri app:", e)]
                   | Fulfilled _ => []
                   end /\
   uncaught (settle p o st) = uncaught st /\
   is_settled 0 (settle p o st) = true).
Proof.
  intros F.
  pose proof (frame_invoked _ _ F) as Hi. rewrite invoked_main in Hi.
  destruct (isTauri h) eqn:Ht.
  2:{ left. unfold settle, host_promise. rewrite Hi. reflexivity. }
  destruct (invoke_throws h "init_app") eqn:Hinv.
  { left. unfold settle, host_promise. rewrite Hi. reflexivity. }
  destruct (reactions_main h Ht Hinv) as [Hr Hn].
  rewrite <- (frame_reactions _ _ F) in Hr.
  rewrite <- (frame_next _ _ F) in Hn.
  destruct p as [|p].
  2:{ left. unfold settle, host_promise. rewrite Hi. reflexivity. }
  destruct (is_settled 0 st) eqn:Hs.
  { left. unfold settle. rewrite Hs, andb_false_r. reflexivity. }
  right. repeat split; try reflexivity.
  - destruct o as [v|e].
    + rewrite app_nil_r. apply (settle_init_fulfilled st v Hi Hr Hn Hs).
    + apply (settle_init_rejected st e Hi Hr Hn Hs).
  - destruct o as [v|e].
    + apply (settle_init_fulfilled st v Hi Hr Hn Hs).
    + apply (settle_init_rejected st e Hi Hr Hn Hs).
  - unfold is_settled. destruct o as [v|e].
    + destruct (settle_init_fulfilled st v Hi Hr Hn Hs) as (_ & _ & ->).
      rewrite existsb_app. simpl. apply orb_true_r.
    + destruct (settle_init_rejected st e Hi Hr Hn Hs) as (_ & _ & ->).
      rewrite existsb_app. simpl. apply orb_true_r.
Qed.

(** Induction over everything that can happen after the script. *)
Lemma lifetime_ind (h : Host) (P : State -> Prop) :
  P (run_script h) ->
  (forall st s, frame (snd (main h initial)) st -> P st -> P (step st s)) ->
  forall evs, P (run_events evs (run_script h)).
Proof.
  intros Hbase Hstep evs.
  assert (G : forall st, frame (snd (main h initial)) st -> P st ->
                         P (run_events evs st)).
  { induction evs as [|s evs IH]; intros st F HP; simpl.
    - exact HP.
    - apply IH.
      + eapply frame_trans; [exact F | apply step_frame].
      + apply Hstep; assumption. }
  apply G; [apply run_script_frame | exact Hbase].
Qed.

Lemma count_label_app (label : string) (a b : list (string * Value)) :
  count_label label (a ++ b) = count_label label a + count_label label b.
Proof. unfold count_label. rewrite filter_app, length_app. reflexivity. Qed.

Lemma console_run_script (h : Host) : console (run_script h) = [].
Proof. main_cases h; reflexivity. Qed.

Lemma uncaught_run_script (h : Host) :
  uncaught (run_script h) =
  match fst (main h initial) with Ok _ => [] | Throw e => [e] end.
Proof. main_cases h; reflexivity. Qed.

Lemma listener_logs_no_init_label (ls : list Listener) (e : Event) :
  count_label "Failed to initialize Tauri app:"
    (flat_map (fun l => listener_log l e) ls) = 0.
Proof.
  induction ls as [|l ls IH]; [reflexivity |].
  simpl. rewrite count_label_app, IH. destruct l; reflexivity.
Qed.

Lemma listener_logs_labels (ls : list Listener) (e : Event) :
  Forall (fun en => In (fst en) script_labels)
    (flat_map (fun l => listener_log l e) ls).
Proof.
  induction ls as [|l ls IH]; simpl; [constructor |].
  apply Forall_app. split; [| exact IH].
  destruct l; simpl;
    [ apply Forall_nil
    | apply Forall_cons; [simpl; auto | apply Forall_nil]
    | apply Forall_cons; [simpl; auto | apply Forall_nil] ].
Qed.

(** ** The run as a whole *)

(** X1. Evaluating the module writes nothing to the console and settles no
    promise, on every path through it, the throwing ones included. *)
Theorem startup_is_silent (h : Host) :
  console (run_script h) = [] /\ settled (run_script h) = [].
Proof. split; main_cases h; reflexivity. Qed.

(** X2. However the host interleaves settlements and events, the
    [.catch] callback writes its entry at most once in the life of the
    page, and never when the bridge was not detected or [invoke] threw. *)
Theorem init_failure_logged_at_most_once (h : Host) (evs : list Stimulus) :
  let c := console (run_events evs (run_script h)) in
  count_label "Failed to initialize Tauri app:" c <= 1 /\
  (isTauri h = false \/ invoke_throws h "init_app" <> None ->
   count_label "Failed to initialize Tauri app:" c = 0).
Proof.
  intros c. subst c.
  set (F := "Failed to initialize Tauri app:").
  assert (G : count_label F (console (run_events evs (run_script h)))
              <= (if is_settled 0 (run_events evs (run_script h)) then 1 else 0)
              /\ (isTauri h = false \/ invoke_throws h "init_app" <> None ->
                  count_label F (console (run_events evs (run_script h))) = 0)).
  { apply (lifetime_ind h (fun st =>
      count_label F (console st) <= (if is_settled 0 st then 1 else 0) /\
      (isTauri h = false \/ invoke_throws h "init_app" <> None ->
       count_label F (console st) = 0))).
    - rewrite console_run_script. split; [| reflexivity].
      unfold count_label; simpl. destruct (is_settled 0 (run_script h)); lia.
    - intros st [p o|t e] Fr [Hle Hz]; simpl.
      + destruct (settle_cases h st p o Fr)
          as [-> | (Ht & Hi & -> & Hs & Hc & _ & Hs')]; [split; assumption |].
        rewrite Hc, Hs', count_label_app. rewrite Hs in Hle. split.
        * simpl in Hle. destruct o; unfold F, count_label in *; simpl; lia.
        * intros [Hf | Hn]; [congruence | contradiction].
      + destruct (run_listeners_log (listeners_for t (ev_type e) st) e st)
          as (Hc & _ & Hs).
        unfold dispatch, is_settled. rewrite Hc, Hs, count_label_app.
        rewrite listener_logs_no_init_label, Nat.add_0_r.
        split; assumption. }
  destruct G as [Hle Hz]. split; [| exact Hz].
  destruct (is_settled 0 (run_events evs (run_script h))); lia.
Qed.

Lemma init_failure_logged_at_most_once_witness :
  count_label "Failed to initialize Tauri app:"
    (console
       (run_events [Settles 0 (Rejected VNull); Fires Window (error_event VNull)]
          (run_script (browser None (VBool false) [("root", 3)])))) = 0.
Proof.
  exact (proj2 (init_failure_logged_at_most_once
                  (browser None (VBool false) [("root", 3)])
                  [Settles 0 (Rejected VNull); Fires Window (error_event VNull)])
           (or_introl eq_refl)).
Defined.

(** X3. Every console entry the script ever produces carries one of its
    three labels. *)
Theorem console_labels_closed (h : Host) (evs : list Stimulus) :
  Forall (fun en => In (fst en) script_labels)
    (console (run_events evs (run_script h))).
Proof.
  apply (lifetime_ind h (fun st =>
    Forall (fun en => In (fst en) script_labels) (console st))).
  - rewrite console_run_script. constructor.
  - intros st [p o|t e] Fr HP; simpl.
    + destruct (settle_cases h st p o Fr)
        as [-> | (_ & _ & -> & _ & Hc & _)]; [assumption |].
      rewrite Hc. apply Forall_app. split; [assumption |].
      destruct o;
        [ apply Forall_nil
        | apply Forall_cons; [simpl; auto | apply Forall_nil] ].
    + destruct (run_listeners_log (listeners_for t (ev_type e) st) e st)
        as (Hc & _).
      unfold dispatch. rewrite Hc. apply Forall_app.
      split; [assumption | apply listener_logs_labels].
Qed.

Lemma uncaught_lifetime (h : Host) (evs : list Stimulus) :
  uncaught (run_events evs (run_script h)) =
  match fst (main h initial) with Ok _ => [] | Throw e => [e] end.
Proof.
  rewrite <- uncaught_run_script.
  apply (lifetime_ind h (fun st => uncaught st = uncaught (run_script h))).
  - reflexivity.
  - intros st [p o|t e] Fr HP; simpl.
    + destruct (settle_cases h st p o Fr)
        as [-> | (_ & _ & _ & _ & _ & Hu & _)]; congruence.
    + destruct (run_listeners_log (listeners_for t (ev_type e) st) e st)
        as (_ & Hu & _).
      unfold dispatch. congruence.
Qed.



(** ** Events over the whole run *)

(** X5. The script suppresses nothing but the context menu: an event of any
    other type, any event fired at the window itself, and any event in a
    development build comes back from dispatch exactly as it went in; and an
    event that is not cancelable never has its default prevented. *)
Theorem only_contextmenu_is_prevented
    (h : Host) (evs : list Stimulus) (t : Target) (e : Event) :
  let st := run_events evs (run_script h) in
  (ev_type e <> "contextmenu" \/ to_boolean (env_DEV h) = true \/ t = Window ->
   fst (dispatch t e st) = e) /\
  (cancelable e = false ->
   defaultPrevented (fst (dispatch t e st)) = defaultPrevented e).
Proof.
  intros st. unfold dispatch. rewrite run_listeners_event.
  rewrite (listeners_for_lifetime h st t (ev_type e) (lifetime_frame h evs)).
  split.
  - intros H. destruct (fst (main h initial)); [| reflexivity].
    destruct (String.eqb_spec "contextmenu" (ev_type e)) as [Heq|Hne];
      destruct (String.eqb "error" (ev_type e)),
        (String.eqb "unhandledrejection" (ev_type e));
      destruct t, (to_boolean (env_DEV h)) eqn:Hd; try reflexivity;
      exfalso; destruct H as [H | [H | H]]; congruence.
  - intros Hnc.
    match goal with |- context [existsb is_contextmenu ?l] =>
      destruct (existsb is_contextmenu l) end; [| reflexivity].
    simpl. rewrite Hnc. apply orb_false_r.
Qed.

Lemma only_contextmenu_is_prevented_witness :
  let st := run_events [Fires Document contextmenu_event]
              (run_script (browser None (VBool false) [("root", 3)])) in
  fst (dispatch Window contextmenu_event st) = contextmenu_event /\
  defaultPrevented
    (fst (dispatch Document
            {| ev_type := "contextmenu"; cancelable := false;
               defaultPrevented := false; ev_error := VUndefined;
               ev_reason := VUndefined |} st)) = false.
Proof.
  split.
  - exact (proj1 (only_contextmenu_is_prevented
                    (browser None (VBool false) [("root", 3)])
                    [Fires Document contextmenu_event] Window contextmenu_event)
             (or_intror (or_intror eq_refl))).
  - exact (proj2 (only_contextmenu_is_prevented
                    (browser None (VBool false) [("root", 3)])
                    [Fires Document contextmenu_event] Document
                    {| ev_type := "contextmenu"; cancelable := false;
                       defaultPrevented := false; ev_error := VUndefined;
                       ev_reason := VUndefined |})
             eq_refl).
Defined.

(** X6. An event that is neither [error] nor [unhandledrejection] leaves the
    whole state as it was: no console entry, no registration, nothing. *)
Theorem other_events_change_nothing
    (h : Host) (evs : list Stimulus) (t : Target) (e : Event) :
  ev_type e <> "error" ->
  ev_type e <> "unhandledrejection" ->
  let st := run_events evs (run_script h) in
  snd (dispatch t e st) = st.
Proof.
  intros He Hr st. unfold dispatch. apply run_listeners_silent.
  rewrite (listeners_for_lifetime h st t (ev_type e) (lifetime_frame h evs)).
  destruct (fst (main h initial)); [| reflexivity].
  destruct (String.eqb_spec "error" (ev_type e)) as [Heq|_]; [congruence |].
  destruct (String.eqb_spec "unhandledrejection" (ev_type e)) as [Heq|_];
    [congruence |].
  destruct (match t with Document => true | Window => false end
            && negb (to_boolean (env_DEV h))
            && String.eqb "contextmenu" (ev_type e)); reflexivity.
Qed.

Lemma other_events_change_nothing_witness :
  let st := run_script (browser (Some VNull) (VBool false) [("root", 3)]) in
  snd (dispatch Document contextmenu_event st) = st.
Proof.
  exact (other_events_change_nothing
           (browser (Some VNull) (VBool false) [("root", 3)]) []
           Document contextmenu_event
           ltac:(discriminate) ltac:(discriminate)).
Defined.





(** ** The script and its host *)

(** X8. Once [invoke] has not thrown, whether the tree is mounted depends on
    [createRoot] and [render] alone, not on the bridge or the build: it is
    rendered, once and into the element found, exactly when neither throws,
    and otherwise nothing is ever rendered. *)
Theorem mount_decided_by_react_alone (h : Host) (evs : list Stimulus) :
  (isTauri h = true -> invoke_throws h "init_app" = None) ->
  let found := lookup_id "root" (doc_elements h) in
  rendered (run_events evs (run_script h)) =
  match createRoot_throws h found, render_throws h with
  | None, None => [({| container := found |}, app_tree)]
  | _, _ => []
  end.
Proof.
  intros Hinv found. subst found. rewrite rendered_lifetime.
  revert Hinv. main_cases h; intros Hinv;
    try (specialize (Hinv eq_refl); discriminate Hinv); reflexivity.
Qed.

Lemma mount_decided_by_react_alone_witness :
  rendered
    (run_events [Fires Window (error_event VNull)]
       (run_script
          {| window_TAURI := Some VNull; env_DEV := VBool true;
             doc_elements := [("root", 3)];
             invoke_throws := fun _ => None;
             createRoot_throws := fun _ => None;
             render_throws := Some (VStr "render failed") |})) = [].
Proof.
  exact (mount_decided_by_react_alone
           {| window_TAURI := Some VNull; env_DEV := VBool true;
              doc_elements := [("root", 3)];
              invoke_throws := fun _ => None;
              createRoot_throws := fun _ => None;
              render_throws := Some (VStr "render failed") |}
           [Fires Window (error_event VNull)] (fun _ => eq_refl)).
Defined.

(** X9. The [invoke] call is not inside a [try]: if it throws [e] before
    returning a promise, the script ends there.  The anchor is never looked
    up, nothing is rendered, no [.catch] and no listener is ever registered,
    no console entry is ever written for it, and [e] stays the one uncaught
    error. *)
Theorem sync_invoke_throw_stops_startup
    (h : Host) (evs : list Stimulus) (e : Value) :
  isTauri h = true ->
  invoke_throws h "init_app" = Some e ->
  let st := run_events evs (run_script h) in
  fst (main h initial) = Throw e /\
  trace (snd (main h initial)) = [AInvoke "init_app"] /\
  rendered st = [] /\ listeners st = [] /\ reactions st = [] /\
  console st = [] /\ uncaught st = [e].
Proof.
  intros Ht Hi st.
  assert (Hm : fst (main h initial) = Throw e)
    by (main_cases h; congruence).
  pose proof (lifetime_frame h evs) as Fr. fold st in Fr.
  split; [exact Hm |]. split; [main_cases h; congruence |].
  split; [subst st; rewrite rendered_lifetime, Hm; reflexivity |].
  split; [rewrite (frame_listeners _ _ Fr); apply (listeners_main_throw h e Hm) |].
  split; [rewrite (frame_reactions _ _ Fr); main_cases h; congruence |].
  split.
  - subst st.
    apply (lifetime_ind h (fun s => console s = [])).
    + apply console_run_script.
    + intros s [p o|t ev] F HP; simpl.
      * destruct (settle_cases h s p o F)
          as [-> | (_ & Hn & _)]; [exact HP | congruence].
      * unfold dispatch.
        destruct (run_listeners_log (listeners_for t (ev_type ev) s) ev s)
          as (Hc & _).
        rewrite Hc, HP, (listeners_for_lifetime h s t (ev_type ev) F), Hm.
        reflexivity.
  - subst st. rewrite uncaught_lifetime, Hm. reflexivity.
Qed.

Lemma sync_invoke_throw_stops_startup_witness :
  let h := {| window_TAURI := Some (VObj 0); env_DEV := VBool false;
              doc_elements := [("root", 3)];
              invoke_throws := fun _ => Some (VStr "no ipc");
              createRoot_throws := fun _ => None;
              render_throws := None |} in
  let st := run_events [Fires Window (error_event VNull)] (run_script h) in
  rendered st = [] /\ listeners st = [] /\ console st = [] /\
  uncaught st = [VStr "no ipc"].
Proof.
  pose proof (sync_invoke_throw_stops_startup
                {| window_TAURI := Some (VObj 0); env_DEV := VBool false;
                   doc_elements := [("root", 3)];
                   invoke_throws := fun _ => Some (VStr "no ipc");
                   createRoot_throws := fun _ => None;
                   render_throws := None |}
                [Fires Window (error_event VNull)] (VStr "no ipc")
                eq_refl eq_refl) as H.
  repeat split; apply H.
Defined.

(** X10. The anchor need not be unique: when several elements carry the id
    [root], the tree is mounted once, into the first of them in document
    order, and the others are never rendered into. *)
Theorem mounts_into_first_anchor
    (h : Host) (evs : list Stimulus) (el : nat) (others : list nat) :
  elements_with_id "root" (doc_elements h) = el :: others ->
  (isTauri h = true -> invoke_throws h "init_app" = None) ->
  createRoot_throws h (Some el) = None ->
  render_throws h = None ->
  rendered (run_events evs (run_script h)) =
    [({| container := Some el |}, app_tree)].
Proof.
  intros Hels Hinv Hcr Hrd.
  assert (Hfound : lookup_id "root" (doc_elements h) = Some el)
    by (rewrite lookup_id_head, Hels; reflexivity).
  rewrite rendered_lifetime.
  revert Hinv. main_cases h; intros Hinv;
    try (specialize (Hinv eq_refl); discriminate Hinv);
    rewrite ?Hfound in *; try congruence; reflexivity.
Qed.

Lemma mounts_into_first_anchor_witness :
  rendered
    (run_events [Fires Document contextmenu_event]
       (run_script
          (browser None (VBool false) [("nav", 1); ("root", 4); ("root", 9)])))
  = [({| container := Some 4 |}, app_tree)].
Proof.
  exact (mounts_into_first_anchor
           (browser None (VBool false) [("nav", 1); ("root", 4); ("root", 9)])
           [Fires Document contextmenu_event] 4 [9]
           eq_refl (fun _ => eq_refl) eq_refl eq_refl).
Defined.


